(** * Google Earth Engine plugin for QGIS: version check, project replay and
      GeoTIFF export

    A shallow embedding of [ee_plugin/ee_plugin.py] (the methods
    [check_version] and [_updateLayers] of [GoogleEarthEnginePlugin]) and of
    the export algorithm exercised by [test/test_export_geotiff.py].

    Python code that prints, raises and mutates host objects is written in a
    state-and-exception monad over an explicit host state; libraries the
    plugin calls into ([requests], [ee.deserializer], [json], the coordinate
    transform, the remote export service) are parameters. *)

From Stdlib Require Import NArith QArith Ascii String.
From stdpp Require Import base option list strings gmap.

(** ** Python exceptions *)

(** The exception classes that occur in the modelled code, with the part of
    the class hierarchy the [except] clauses depend on.  Every class here
    derives from [Exception]. *)
Inductive pyclass : Set :=
  | Exception
  | RequestException      (* requests.RequestException *)
  | Timeout               (* requests.exceptions.Timeout *)
  | ConnectionError       (* requests.exceptions.ConnectionError *)
  | HTTPError             (* requests.exceptions.HTTPError *)
  | ValueError
  | JSONDecodeError       (* json.JSONDecodeError *)
  | TypeError
  | AttributeError
  | IndexError
  | EEException.          (* ee.EEException *)

#[global] Instance pyclass_eq_dec : EqDecision pyclass.
Proof. solve_decision. Defined.

(** Strict ancestors of a class. *)
Definition bases (c : pyclass) : list pyclass :=
  match c with
  | Exception => []
  | RequestException => [Exception]
  | Timeout | ConnectionError | HTTPError => [RequestException; Exception]
  | ValueError => [Exception]
  | JSONDecodeError => [ValueError; Exception]
  | TypeError | AttributeError | IndexError | EEException => [Exception]
  end.

Definition issubclass (c d : pyclass) : bool :=
  bool_decide (c = d) || bool_decide (d ∈ bases c).

(** A raised exception: its class and [str(e)]. *)
Record exn : Set := mk_exn { exn_class : pyclass; exn_str : string }.

Definition isinstance (e : exn) (c : pyclass) : bool :=
  issubclass (exn_class e) c.

(** ** Results and the state-and-exception monad *)

Inductive result (A : Type) : Type :=
  | Ret (a : A)
  | Raise (e : exn).
Arguments Ret {A} a.
Arguments Raise {A} e.

Definition raises {A} (r : result A) : bool :=
  match r with Ret _ => false | Raise _ => true end.

(** A computation over a host state [S]: it yields a value or raises, and
    leaves a final state either way. *)
Definition M (S A : Type) : Type := S -> result A * S.

Definition ret {S A} (a : A) : M S A := fun s => (Ret a, s).

Definition raise {S A} (e : exn) : M S A := fun s => (Raise e, s).

Definition bind {S A B} (m : M S A) (k : A -> M S B) : M S B :=
  fun s =>
    match m s with
    | (Ret a, s') => k a s'
    | (Raise e, s') => (Raise e, s')
    end.

(** A call into a library whose outcome is given from outside. *)
Definition lift {S A} (r : result A) : M S A := fun s => (r, s).

Definition modify {S} (f : S -> S) : M S unit := fun s => (Ret tt, f s).

Definition gets {S A} (f : S -> A) : M S A := fun s => (Ret (f s), s).

Notation "'do' x <- m ; k" := (bind m (fun x => k))
  (at level 10, x name, m at level 100, k at level 200).
Notation "'do_' m ; k" := (bind m (fun _ => k))
  (at level 10, m at level 100, k at level 200).

(** [except C as e: h e] clauses, tried in order. *)
Definition handlers (S A : Type) : Type := list (pyclass * (exn -> M S A)).

Fixpoint dispatch {S A} (hs : handlers S A) (e : exn) : M S A :=
  match hs with
  | [] => raise e
  | (c, h) :: hs' => if isinstance e c then h e else dispatch hs' e
  end.

(** [try: body / except ...: ...]. *)
Definition try_except {S A} (body : M S A) (hs : handlers S A) : M S A :=
  fun s =>
    match body s with
    | (Ret a, s') => (Ret a, s')
    | (Raise e, s') => dispatch hs e s'
    end.

(** [try: body / finally: fin]: [fin] runs whether or not [body] raised; an
    exception of [fin] replaces the pending one. *)
Definition try_finally {S A} (body : M S A) (fin : M S unit) : M S A :=
  fun s =>
    let '(r, s') := body s in
    match fin s' with
    | (Ret _, s'') => (r, s'')
    | (Raise e, s'') => (Raise e, s'')
    end.

(** ** Python string ordering *)

(** [a < b] on [str]: the first position where the strings differ decides by
    code point; a proper prefix is smaller.  (On UTF-8 text the byte order
    used here coincides with the code point order.) *)
Fixpoint str_lt (a b : string) : bool :=
  match a, b with
  | EmptyString, EmptyString => false
  | EmptyString, String _ _ => true
  | String _ _, EmptyString => false
  | String x a', String y b' =>
      if (N_of_ascii x <? N_of_ascii y)%N then true
      else if (N_of_ascii y <? N_of_ascii x)%N then false
      else str_lt a' b'
  end.

(** The relation [str_lt] computes, spelled out: [a] is a proper prefix of
    [b], or after a common prefix [a] continues with a smaller character. *)
Inductive lex_lt : string -> string -> Prop :=
  | lex_prefix (y : ascii) (b : string) : lex_lt EmptyString (String y b)
  | lex_head (x y : ascii) (a b : string) :
      (N_of_ascii x < N_of_ascii y)%N -> lex_lt (String x a) (String y b)
  | lex_tail (x : ascii) (a b : string) :
      lex_lt a b -> lex_lt (String x a) (String x b).

(** ** The version check *)

Module VersionCheck.

(** A message pushed to the host's message bar. *)
Record message : Set := mk_message {
  msg_title : string;
  msg_text : string;
  msg_duration : nat
}.

(** A [requests.get] call that was issued. *)
Record get_call : Set := mk_get { get_url : string; get_timeout : nat }.

(** What [check_version] reads and writes: the module-level flag
    [version_checked], the network, [iface.messageBar()] and standard
    output. *)
Record host : Set := mk_host {
  version_checked : bool;
  network : list get_call;
  messageBar : list message;
  stdout : list string
}.

Definition set_version_checked (b : bool) (h : host) : host :=
  {| version_checked := b; network := network h;
     messageBar := messageBar h; stdout := stdout h |}.

Definition requests_get (url : string) (timeout : nat)
    (answer : result string) : M host string :=
  do_ modify (fun h =>
    {| version_checked := version_checked h;
       network := network h ++ [mk_get url timeout];
       messageBar := messageBar h; stdout := stdout h |});
  lift answer.

Definition pushMessage (title text : string) (duration : nat) : M host unit :=
  modify (fun h =>
    {| version_checked := version_checked h; network := network h;
       messageBar := messageBar h ++ [mk_message title text duration];
       stdout := stdout h |}).

Definition print (line : string) : M host unit :=
  modify (fun h =>
    {| version_checked := version_checked h; network := network h;
       messageBar := messageBar h; stdout := stdout h ++ [line] |}).

Definition latest_version_url : string :=
  "https://qgis-ee-plugin.appspot.com/get_latest_version".

Definition upgrade_text (latest_version VERSION : string) : string :=
  "There is a more recent version of the ee_plugin available "
  +:+ latest_version +:+ " and you have " +:+ VERSION +:+ ", please upgrade!".

Definition upgrade_message (latest_version VERSION : string) : message :=
  mk_message "Earth Engine plugin:" (upgrade_text latest_version VERSION) 15.

(** The line printed for a failed request, by the first [except] clause
    whose class the exception is an instance of. *)
Definition failure_line (e : exn) : string :=
  if isinstance e RequestException then
    "HTTP error occurred when checking for recent plugin version: " +:+ exn_str e
  else if isinstance e ValueError then
    "Value error occurred: " +:+ exn_str e
  else
    "An unexpected error occurred: " +:+ exn_str e.

Section CheckVersion.

(** [VERSION] is read from [metadata.txt] when the module is imported. *)
Variable VERSION : string.

(** [check_version]; [answer] is what the endpoint does if it is asked:
    the response text, or the exception [requests.get] raises. *)
Definition check_version (answer : result string) : M host unit :=
  do checked <- gets version_checked;
  if checked then ret tt
  else
    try_finally
      (try_except
         (do latest_version <- requests_get latest_version_url 10 answer;
          if str_lt VERSION latest_version
          then pushMessage "Earth Engine plugin:"
                 (upgrade_text latest_version VERSION) 15
          else ret tt)
         [ (RequestException, fun e =>
              print ("HTTP error occurred when checking for recent plugin version: "
                     +:+ exn_str e));
           (ValueError, fun e =>
              print ("Value error occurred: " +:+ exn_str e));
           (Exception, fun e =>
              print ("An unexpected error occurred: " +:+ exn_str e)) ])
      (modify (set_version_checked true)).

(** A session: [check_version] called once per element of [answers]. *)
Fixpoint session (answers : list (result string)) (h : host) : host :=
  match answers with
  | [] => h
  | a :: rest => session rest (snd (check_version a h))
  end.

End CheckVersion.

(** *** A sample session: a host on which nothing has happened yet, and a
    request that times out. *)
Module Sample.

Definition fresh : host := mk_host false [] [] [].

Definition timed_out : exn :=
  mk_exn Timeout
    "HTTPSConnectionPool(host='qgis-ee-plugin.appspot.com', port=443): Read timed out. (read timeout=10)".

End Sample.

End VersionCheck.

(** ** Replay on project load *)

Module Replay.

(** A value stored in a layer's custom properties. *)
Inductive variant : Set :=
  | VBool (b : bool)
  | VStr (s : string).

(** Truth value of [layer.customProperty(key)] as [filter] tests it: a
    missing property is [None]. *)
Definition truthy (v : option variant) : bool :=
  match v with
  | None => false
  | Some (VBool b) => b
  | Some (VStr s) => negb (String.eqb s "")
  end.

Record renderer : Set := mk_renderer { opacity : Q }.

(** A map layer of the project.  [custom_properties] is the Persisted Layer
    Record; [layer_renderer] is [None] when [layer.renderer()] is null. *)
Record map_layer : Type := mk_layer {
  layer_id : string;
  layer_name : string;
  custom_properties : gmap string variant;
  layer_renderer : option renderer
}.

Definition customProperty (layer : map_layer) (key : string) : option variant :=
  custom_properties layer !! key.

(** A node of the layer tree. *)
Record tree_node : Set := mk_node { itemVisibilityChecked : bool }.

(** [QgsProject.instance()]: the layers in the order
    [mapLayers().values()] yields them, and the layer tree by layer id. *)
Record project : Type := mk_project {
  mapLayers : list map_layer;
  layerTreeRoot : gmap string tree_node
}.

Definition nl : string := String (ascii_of_nat 10) EmptyString.

Definition legacy_warning : string :=
  nl +:+ "WARNING:" +:+ nl +:+
  " Map layer saved with older version of EE plugin is detected, backward-compatibility for versions before 0.0.3 is not supported due to changes in EE library, please re-create EE layer by re-running the Python script"
  +:+ nl.

Definition none_has_no_attribute (attr : string) : exn :=
  mk_exn AttributeError
    ("'NoneType' object has no attribute '" +:+ attr +:+ "'").

(** How a loop body ends: it falls through to the next item, or leaves the
    enclosing function with [return]. *)
Inductive flow : Set := Next | Return.

Section Replay.

(** Remote objects and parsed visualization parameters, and the two
    deserializers [ee.deserializer.fromJSON] and [json.loads]. *)
Variables EEObject VisParams : Type.
Variable fromJSON : variant -> result EEObject.
Variable json_loads : variant -> result VisParams.

(** The five values handed to [utils.add_or_update_ee_layer]. *)
Record display : Type := mk_display {
  d_object : EEObject;
  d_vis : option VisParams;
  d_name : string;
  d_shown : bool;
  d_opacity : Q
}.

(** The host as [_updateLayers] sees it: the project, the display layers
    the rendering pipeline has been asked to (re)build, and standard
    output. *)
Record qgis : Type := mk_qgis {
  proj : project;
  rendered : list display;
  stdout : list string
}.

Definition print (line : string) : M qgis unit :=
  modify (fun q =>
    {| proj := proj q; rendered := rendered q; stdout := stdout q ++ [line] |}).

Definition findLayer (id : string) : M qgis (option tree_node) :=
  gets (fun q => layerTreeRoot (proj q) !! id).

(** Modelled from the spec: [utils.add_or_update_ee_layer], which is not
    among the sources.  It re-issues the add-or-update operation with the
    five values so that the rendering pipeline reconstructs the display
    layer; it mutates the live rendering layer only, never the stored
    metadata. *)
Definition add_or_update_ee_layer (ee_object : EEObject)
    (ee_object_vis : option VisParams) (name : string) (shown : bool)
    (opacity : Q) : M qgis unit :=
  modify (fun q =>
    {| proj := proj q;
       rendered := rendered q
                   ++ [mk_display ee_object ee_object_vis name shown opacity];
       stdout := stdout q |}).

(** The body of the [for] loop of [_updateLayers]. *)
Definition update_layer (layer : map_layer) : M qgis flow :=
  let ee_object := customProperty layer "ee-object" in
  let ee_object_vis := customProperty layer "ee-object-vis" in
  match ee_object with
  | None =>
      do_ print legacy_warning;
      ret Return
  | Some ee_object =>
      do ee_object <- lift (fromJSON ee_object);
      do ee_object_vis <-
        match ee_object_vis with
        | None => ret None
        | Some vis => do parsed <- lift (json_loads vis); ret (Some parsed)
        end;
      let name := layer_name layer in
      do node <- findLayer (layer_id layer);
      do shown <-
        match node with
        | None => raise (none_has_no_attribute "itemVisibilityChecked")
        | Some node => ret (itemVisibilityChecked node)
        end;
      do opacity <-
        match layer_renderer layer with
        | None => raise (none_has_no_attribute "opacity")
        | Some r => ret (opacity r)
        end;
      do_ add_or_update_ee_layer ee_object ee_object_vis name shown opacity;
      ret Next
  end.

Fixpoint for_each (layers : list map_layer) : M qgis unit :=
  match layers with
  | [] => ret tt
  | layer :: rest =>
      do f <- update_layer layer;
      match f with
      | Next => for_each rest
      | Return => ret tt
      end
  end.

Definition is_ee_layer (layer : map_layer) : bool :=
  truthy (customProperty layer "ee-layer").

Definition _updateLayers : M qgis unit :=
  do layers <- gets (fun q => mapLayers (proj q));
  for_each (List.filter is_ee_layer layers).

(** *** Vocabulary of the claims about replay *)

(** A legacy layer carries the marker but no stored object expression. *)
Definition legacy (layer : map_layer) : bool :=
  is_ee_layer layer && bool_decide (customProperty layer "ee-object" = None).

(** The display layer a marked layer stands for when its stored expression
    and visualization spec deserialize, its tree node exists and its
    renderer is set; [None] otherwise. *)
Definition display_of (p : project) (layer : map_layer) : option display :=
  match customProperty layer "ee-object" with
  | None => None
  | Some json =>
      match fromJSON json with
      | Raise _ => None
      | Ret obj =>
          let vis :=
            match customProperty layer "ee-object-vis" with
            | None => Some None
            | Some v =>
                match json_loads v with
                | Raise _ => None
                | Ret parsed => Some (Some parsed)
                end
            end in
          match vis, layerTreeRoot p !! layer_id layer, layer_renderer layer with
          | Some vis, Some node, Some r =>
              Some (mk_display obj vis (layer_name layer)
                      (itemVisibilityChecked node) (opacity r))
          | _, _, _ => None
          end
      end
  end.

Definition well_formed (p : project) (layer : map_layer) : bool :=
  is_ee_layer layer && bool_decide (is_Some (display_of p layer)).

(** The displays of the layers of [ls] that have one, in order. *)
Definition displays (p : project) (ls : list map_layer) : list display :=
  omap (display_of p) ls.

(** [layer] has been reconstructed in [q]. *)
Definition reconstructed (layer : map_layer) (q : qgis) : Prop :=
  exists d, display_of (proj q) layer = Some d /\ d ∈ rendered q.

(** The stored expression of [layer] fails to deserialize, or its
    visualization spec fails to parse, with exception [e]. *)
Definition malformed (layer : map_layer) (e : exn) : Prop :=
  exists json, customProperty layer "ee-object" = Some json /\
    (fromJSON json = Raise e \/
     exists obj vis, fromJSON json = Ret obj /\
       customProperty layer "ee-object-vis" = Some vis /\
       json_loads vis = Raise e).

(** The stored data of [layer] deserializes, but its tree node or its
    renderer is missing. *)
Definition detached (p : project) (layer : map_layer) : Prop :=
  (exists json obj, customProperty layer "ee-object" = Some json /\
     fromJSON json = Ret obj) /\
  (forall vis, customProperty layer "ee-object-vis" = Some vis ->
     raises (json_loads vis) = false) /\
  (layerTreeRoot p !! layer_id layer = None \/ layer_renderer layer = None).

(** The [AttributeError] a detached layer runs into: the tree node is
    looked up before the renderer. *)
Definition missing_attribute (p : project) (layer : map_layer) : exn :=
  match layerTreeRoot p !! layer_id layer with
  | None => none_has_no_attribute "itemVisibilityChecked"
  | Some _ => none_has_no_attribute "opacity"
  end.

(** The host after the rendering pipeline has rebuilt the displays [ds],
    and after [line] has been printed. *)
Definition render (ds : list display) (q : qgis) : qgis :=
  {| proj := proj q; rendered := rendered q ++ ds; stdout := stdout q |}.

Definition printed (line : string) (q : qgis) : qgis :=
  {| proj := proj q; rendered := rendered q; stdout := stdout q ++ [line] |}.

(** The layers the loop of [_updateLayers] visits, in order. *)
Definition ee_layers (q : qgis) : list map_layer :=
  List.filter is_ee_layer (mapLayers (proj q)).

(** Per-layer isolation of failures, as a property of a replay: whenever
    some visited layer is malformed, every well-formed layer of the project
    has still been reconstructed when [_updateLayers] is over. *)
Definition failures_isolated : Prop :=
  forall (q : qgis) (bad : map_layer) (e : exn),
    bad ∈ ee_layers q -> malformed bad e ->
    forall good : map_layer,
      good ∈ mapLayers (proj q) -> well_formed (proj q) good = true ->
      reconstructed good (snd (_updateLayers q)).

End Replay.

Arguments mk_display {EEObject VisParams}.
Arguments mk_qgis {EEObject VisParams}.
Arguments proj {EEObject VisParams}.
Arguments rendered {EEObject VisParams}.
Arguments stdout {EEObject VisParams}.
Arguments print {EEObject VisParams}.
Arguments reconstructed {EEObject VisParams}.
Arguments render {EEObject VisParams}.
Arguments printed {EEObject VisParams}.
Arguments ee_layers {EEObject VisParams}.

(** *** A sample project

    Deserializers that accept exactly the texts starting with an opening
    brace, and three layers: one saved by an old plugin version (marker
    only), one whose stored expression is not JSON, and one well-formed. *)
Module Sample.

Definition starts_with_brace (s : string) : bool :=
  match s with
  | String c _ => Ascii.eqb c "{"%char
  | EmptyString => false
  end.

Definition decode (v : variant) : result string :=
  match v with
  | VStr s =>
      if starts_with_brace s then Ret s
      else Raise (mk_exn JSONDecodeError "Expecting value: line 1 column 1 (char 0)")
  | VBool _ =>
      Raise (mk_exn TypeError "the JSON object must be str, bytes or bytearray, not bool")
  end.

Definition fromJSON : variant -> result string := decode.
Definition json_loads : variant -> result string := decode.

Definition old_layer : map_layer :=
  {| layer_id := "old_0a1"; layer_name := "old";
     custom_properties := {[ "ee-layer" := VBool true ]};
     layer_renderer := Some (mk_renderer 1) |}.

Definition broken_layer : map_layer :=
  {| layer_id := "broken_1b2"; layer_name := "broken";
     custom_properties :=
       <[ "ee-object" := VStr "not json" ]> {[ "ee-layer" := VBool true ]};
     layer_renderer := Some (mk_renderer 1) |}.

Definition dem_layer : map_layer :=
  {| layer_id := "dem_2c3"; layer_name := "DEM";
     custom_properties :=
       <[ "ee-object-vis" := VStr "{}" ]>
         (<[ "ee-object" := VStr "{type: Invocation}" ]>
            {[ "ee-layer" := VBool true ]});
     layer_renderer := Some (mk_renderer (1 # 2)) |}.

(** [dem_layer] without a renderer. *)
Definition bare_layer : map_layer :=
  {| layer_id := "bare_3d4"; layer_name := "bare";
     custom_properties := custom_properties dem_layer;
     layer_renderer := None |}.

Definition tree : gmap string tree_node :=
  <[ "bare_3d4" := mk_node true ]>
    (<[ "dem_2c3" := mk_node true ]>
       (<[ "broken_1b2" := mk_node true ]> {[ "old_0a1" := mk_node false ]})).

Definition dem_display : display string string :=
  mk_display "{type: Invocation}" (Some "{}") "DEM" true (1 # 2).

(** A freshly loaded project with the given layers. *)
Definition loaded (layers : list map_layer) : qgis string string :=
  mk_qgis (mk_project layers tree) [] [].

End Sample.

End Replay.

(** ** Export as GeoTIFF *)

Module ExportGeoTIFF.

(** An axis-aligned rectangle, as [QgsRectangle(xmin, ymin, xmax, ymax)]. *)
Record rectangle : Set := mk_rectangle { xmin : Q; ymin : Q; xmax : Q; ymax : Q }.

(** An extent: a rectangle and the coordinate reference system it is
    expressed in. *)
Record extent : Set := mk_extent { ext_rect : rectangle; ext_crs : string }.

(** The parameter dictionary of the tests: [EE_IMAGE], [EXTENT], [SCALE],
    [PROJECTION], [OUTPUT]. *)
Record parameters : Set := mk_parameters {
  EE_IMAGE : nat;
  EXTENT : option extent;
  SCALE : Q;
  PROJECTION : string;
  OUTPUT : string
}.

(** The algorithm object; the tests set [raster_layers] to the names of the
    tracked remote raster layers. *)
Record algorithm : Set := mk_algorithm { raster_layers : list string }.

(** The request handed to the remote service: object, extent, scale, CRS. *)
Record request : Set := mk_request {
  req_object : string;
  req_region : extent;
  req_scale : Q;
  req_crs : string
}.

(** What the tests read back from the written file with [rasterio]. *)
Record raster : Set := mk_raster {
  raster_crs : string;
  raster_width : nat;
  raster_height : nat;
  raster_count : nat
}.

(** The outside world of an export: the requests sent to the remote
    service and the files on disk. *)
Record world : Type := mk_world {
  sent : list request;
  files : gmap string raster
}.

Section ProcessAlgorithm.

(** The geodesy library's rectangle transform between two reference
    systems, and the remote service answering an export request. *)
Variable transform : string -> string -> rectangle -> rectangle.
Variable remote_export : request -> result raster.

Definition reproject (e : extent) (target : string) : extent :=
  {| ext_rect := transform (ext_crs e) target (ext_rect e);
     ext_crs := target |}.

Definition send (r : request) : M world raster :=
  do_ modify (fun w => {| sent := sent w ++ [r]; files := files w |});
  lift (remote_export r).

Definition write_file (path : string) (img : raster) : M world unit :=
  modify (fun w => {| sent := sent w; files := <[path := img]> (files w) |}).

(** Modelled from the spec: [ExportGeoTIFFAlgorithm.processAlgorithm]
    ([processing/export_geotiff.py]), which is not among the sources; only
    its tests are.  The selected index must name a tracked raster layer
    (out-of-bounds condition otherwise; the test with an empty layer list
    and no extent expects [IndexError], so this check comes first); the
    extent must be set (invalid parameters, [ValueError]); an extent whose
    source CRS differs from the target CRS is reprojected into the target
    CRS before the request is constructed; the request for the object,
    extent, scale and CRS is issued and the resulting raster written to
    the output path. *)
Definition processAlgorithm (alg : algorithm) (params : parameters)
    : M world unit :=
  do layer_name <-
    match raster_layers alg !! EE_IMAGE params with
    | None => raise (mk_exn IndexError "list index out of range")
    | Some name => ret name
    end;
  do ext <-
    match EXTENT params with
    | None => raise (mk_exn ValueError "Invalid parameters: extent is required")
    | Some e => ret e
    end;
  let crs := PROJECTION params in
  let ext :=
    if String.eqb (ext_crs ext) crs then ext else reproject ext crs in
  do img <- send (mk_request layer_name ext (SCALE params) crs);
  write_file (OUTPUT params) img.

End ProcessAlgorithm.

(** *** A sample service

    A transform that maps Web Mercator metres to degrees by a fixed factor
    and leaves other pairs alone, and a service that answers every request
    with a single-band raster in the requested CRS. *)
Module Sample.

Definition to_degrees (x : Q) : Q := x / 111320.

Definition transform (source target : string) (r : rectangle) : rectangle :=
  if String.eqb source "EPSG:3857" && String.eqb target "EPSG:4326" then
    mk_rectangle (to_degrees (xmin r)) (to_degrees (ymin r))
                 (to_degrees (xmax r)) (to_degrees (ymax r))
  else r.

Definition remote_export (r : request) : result raster :=
  Ret (mk_raster (req_crs r) 600 600 1).

(** The parameters of [test_extent_transformed_to_target_crs]. *)
Definition vancouver_3857 : extent :=
  mk_extent (mk_rectangle (-13700000) 6300000 (-13680000) 6320000) "EPSG:3857".

Definition to_wgs84 : parameters :=
  mk_parameters 0 (Some vancouver_3857) 30 "EPSG:4326"
    "test_extent_transformed.tif".

(** The parameters of [test_layer_not_found] and [test_requires_extent]. *)
Definition no_extent : parameters :=
  mk_parameters 0 None 1000 "EPSG:4326" "test.tif".

Definition nothing_yet : world := mk_world [] ∅.

End Sample.

End ExportGeoTIFF.

(** ** The plugin object: construction, unloading and the project button *)

Module Plugin.

(** Calls the plugin makes into the host application and its own helper
    modules, in the order they are made. *)
Inductive call : Set :=
  | QTranslator_load (path : string)
  | installTranslator (path : string)
  | register_data_provider
  | updated_connect
  | setup_logger (plugin_name : string)
  | removeAction (menu : string)
  | deleteLater (button : string)
  | removeProvider (provider : string)
  | teardown_logger.

#[global] Instance call_eq_dec : EqDecision call.
Proof. solve_decision. Defined.

(** The host application: the providers in the processing registry, the
    calls received so far, and standard output. *)
Record app : Set := mk_app {
  registry : list string;
  calls : list call;
  stdout : list string
}.

(** The attributes of a [GoogleEarthEnginePlugin] the modelled methods
    touch.  [menu] and [toolButton] hold [None] or a widget; for
    [translator], [provider] and [set_cloud_project_action], [None] stands
    for an attribute that has not been assigned.  The action is kept by its
    text, and [ee_config_project] is the current [self.ee_config.project]. *)
Record plugin : Set := mk_plugin {
  ee_config_project : option string;
  menu : option string;
  toolButton : option string;
  translator : option string;
  provider : option string;
  set_cloud_project_action : option string
}.

Definition invoke (c : call) : M app unit :=
  modify (fun a =>
    {| registry := registry a; calls := calls a ++ [c]; stdout := stdout a |}).

Definition print (line : string) : M app unit :=
  modify (fun a =>
    {| registry := registry a; calls := calls a; stdout := stdout a ++ [line] |}).

(** [self.<name>] for an attribute that may not have been assigned. *)
Definition getattr {A} (name : string) (field : option A) : M app A :=
  match field with
  | Some v => ret v
  | None =>
      raise (mk_exn AttributeError
               ("'GoogleEarthEnginePlugin' object has no attribute '"
                +:+ name +:+ "'"))
  end.

(** [str(x)] for a settings value that is a string or [None]. *)
Definition py_str (x : option string) : string :=
  match x with
  | Some s => s
  | None => "None"
  end.

(** [s[0:n]]: the first [n] characters, or all of [s] when it is
    shorter. *)
Fixpoint str_take (n : nat) (s : string) : string :=
  match n, s with
  | S n', String c s' => String c (str_take n' s')
  | _, _ => EmptyString
  end.

(** The property [_project_button_text]; [x or '...'] takes ['...'] when
    [x] is [None] or the empty string. *)
Definition _project_button_text (self : plugin) : string :=
  "Set Project: " +:+
  match ee_config_project self with
  | Some project => if String.eqb project "" then "..." else project
  | None => "..."
  end.

Section Plugin.

(** The directory of the plugin, [os.path.join], [os.path.exists],
    [qVersion()] and [utils.translate]. *)
Variable PLUGIN_DIR : string.
Variable path_join : list string -> string.
Variable path_exists : string -> bool.
Variable qVersion : string.
Variable translate : string -> string.

Definition tr (message : string) : string := translate message.

Definition locale_of (userLocale : option string) : string :=
  str_take 2 (py_str userLocale).

Definition locale_path_of (userLocale : option string) : string :=
  path_join [PLUGIN_DIR; "i18n";
             "GoogleEarthEnginePlugin_" +:+ locale_of userLocale +:+ ".qm"].

(** [__init__]; [userLocale] is [QSettings().value("locale/userLocale")]
    and [project] the project of the configuration handed in. *)
Definition __init__ (userLocale : option string) (project : option string)
    : M app plugin :=
  let self := mk_plugin project None None None None None in
  let locale_path := locale_path_of userLocale in
  do self <-
    (if path_exists locale_path then
       do_ invoke (QTranslator_load locale_path);
       do_ (if str_lt "4.3.3" qVersion
            then invoke (installTranslator locale_path)
            else ret tt);
       ret {| ee_config_project := ee_config_project self;
              menu := menu self; toolButton := toolButton self;
              translator := Some locale_path;
              provider := provider self;
              set_cloud_project_action := set_cloud_project_action self |}
     else ret self);
  do_ invoke register_data_provider;
  do_ invoke updated_connect;
  do_ invoke (setup_logger "Google Earth Engine Plugin");
  ret self.

(** The slot connected to [ee_config.signals.updated]:
    [self.set_cloud_project_action.setText(self.tr(self._project_button_text))]. *)
Definition on_config_updated (self : plugin) : M app plugin :=
  do _action <- getattr "set_cloud_project_action"
                  (set_cloud_project_action self);
  ret {| ee_config_project := ee_config_project self;
         menu := menu self; toolButton := toolButton self;
         translator := translator self; provider := provider self;
         set_cloud_project_action := Some (tr (_project_button_text self)) |}.

End Plugin.

(** What [toolButton.deleteLater()] does: it returns, or raises the
    [RuntimeError] of a widget already deleted, or raises something
    else. *)
Inductive delete_outcome : Set :=
  | Deleted
  | RaisesRuntimeError (message : string)
  | RaisesOther (e : exn).

(** [unload].  The [try] around the tool button has the single clause
    [except RuntimeError], which prints and goes on; any other exception
    leaves [unload].  [removeProvider] takes the provider out of the
    registry. *)
Definition unload (self : plugin) (deleting : delete_outcome) : M app unit :=
  do_ match menu self with
      | Some m => invoke (removeAction m)
      | None => ret tt
      end;
  do_ match toolButton self with
      | Some button =>
          do_ invoke (deleteLater button);
          match deleting with
          | Deleted => ret tt
          | RaisesRuntimeError e => print ("Error deleting toolButton: " +:+ e)
          | RaisesOther e => raise e
          end
      | None => ret tt
      end;
  do provider <- getattr "provider" (provider self);
  do providers <- gets registry;
  do_ (if bool_decide (provider ∈ providers) then
         do_ invoke (removeProvider provider);
         modify (fun a =>
           {| registry := List.filter
                            (fun p => negb (String.eqb p provider))
                            (registry a);
              calls := calls a; stdout := stdout a |})
       else ret tt);
  invoke teardown_logger.

(** *** A sample host: nothing registered, nothing called yet. *)
Module Sample.

Definition idle : app := mk_app [] [] [].

(** A plugin whose menu, tool button, provider and action are set, on a
    host where its provider is registered. *)
Definition started : plugin :=
  mk_plugin (Some "my-project") (Some "&Google Earth Engine")
    (Some "toolButton") None (Some "ee") (Some "Set Project: my-project").

Definition running : app := mk_app ["native"; "ee"; "gdal"] [] [].

End Sample.

End Plugin.

(** ** Further sample data *)

Module Scenario.

(** A vector layer that has nothing to do with the plugin: no marker, and
    a stray [ee-object] property that is not JSON. *)
Definition roads_layer : Replay.map_layer :=
  {| Replay.layer_id := "roads_4e5"; Replay.layer_name := "roads";
     Replay.custom_properties := {[ "ee-object" := Replay.VStr "not json" ]};
     Replay.layer_renderer := None |}.

(** An installation with an English translation file, on Qt 5. *)
Definition PLUGIN_DIR : string := "/plugins/ee_plugin".

Definition path_join (parts : list string) : string := String.concat "/" parts.

Definition path_exists (path : string) : bool :=
  String.eqb path "/plugins/ee_plugin/i18n/GoogleEarthEnginePlugin_en.qm".

Definition qt5 : string := "5.15.3".

Definition qt10 : string := "10.0.1".

End Scenario.

(** * Properties *)

(** ** Exceptions and string ordering *)

Lemma isinstance_Exception (e : exn) : isinstance e Exception = true.
Proof. destruct e as [c s]; destruct c; reflexivity. Qed.

Lemma str_lt_lex (a b : string) : str_lt a b = true <-> lex_lt a b.
Proof.
  revert b; induction a as [|x a IH]; intros [|y b]; simpl.
  - split; [discriminate | inversion 1].
  - split; [constructor | reflexivity].
  - split; [discriminate | inversion 1].
  - destruct (N.ltb_spec (N_of_ascii x) (N_of_ascii y)) as [Hxy|Hxy].
    + split; [intros _; now constructor | reflexivity].
    + destruct (N.ltb_spec (N_of_ascii y) (N_of_ascii x)) as [Hyx|Hyx].
      * split; [discriminate |].
        inversion 1; subst; lia.
      * assert (x = y) as ->.
        { rewrite <- (ascii_N_embedding x), <- (ascii_N_embedding y).
          f_equal; lia. }
        rewrite IH. split; [now constructor |].
        inversion 1; subst; [lia | assumption].
Qed.

Lemma lex_lt_irrefl (a : string) : ~ lex_lt a a.
Proof.
  induction a as [|x a IH]; inversion 1; subst; [lia | auto].
Qed.

(** Plain string ordering ranks a multi-digit segment below a single digit. *)
Example str_lt_multi_digit :
  str_lt "10.0" "9.0" = true /\ str_lt "0.0.7" "0.0.10" = false.
Proof. split; reflexivity. Qed.

(** ** The version check *)

Section VersionCheckFacts.

Import VersionCheck.

Variable VERSION : string.

Lemma check_version_done (answer : result string) (h : host) :
  version_checked h = true -> check_version VERSION answer h = (Ret tt, h).
Proof. intros H. unfold check_version, bind, gets. now rewrite H. Qed.

Lemma check_version_response (latest : string) (h : host) :
  version_checked h = false ->
  check_version VERSION (Ret latest) h =
    (Ret tt,
     {| version_checked := true;
        network := network h ++ [mk_get latest_version_url 10];
        messageBar := messageBar h ++
          (if str_lt VERSION latest then [upgrade_message latest VERSION]
           else []);
        stdout := stdout h |}).
Proof.
  intros H. unfold check_version, bind, gets. rewrite H.
  unfold try_finally, try_except, requests_get, bind, modify, lift; simpl.
  destruct (str_lt VERSION latest); simpl.
  - reflexivity.
  - now rewrite app_nil_r.
Qed.

Lemma check_version_failure (e : exn) (h : host) :
  version_checked h = false ->
  check_version VERSION (Raise e) h =
    (Ret tt,
     {| version_checked := true;
        network := network h ++ [mk_get latest_version_url 10];
        messageBar := messageBar h;
        stdout := stdout h ++ [failure_line e] |}).
Proof.
  intros H. unfold check_version, bind, gets. rewrite H.
  unfold try_finally, try_except, requests_get, bind, modify, lift; simpl.
  unfold failure_line.
  destruct (isinstance e RequestException); [reflexivity |].
  destruct (isinstance e ValueError); [reflexivity |].
  now rewrite isinstance_Exception.
Qed.

Lemma check_version_sets_flag (answer : result string) (h : host) :
  version_checked (snd (check_version VERSION answer h)) = true.
Proof.
  destruct (version_checked h) eqn:H.
  - now rewrite check_version_done.
  - destruct answer as [latest|e].
    + now rewrite check_version_response.
    + now rewrite check_version_failure.
Qed.

Lemma session_done (answers : list (result string)) (h : host) :
  version_checked h = true -> session VERSION answers h = h.
Proof.
  induction answers as [|a rest IH]; intros H; simpl; [reflexivity |].
  rewrite check_version_done by assumption. now apply IH.
Qed.

(** Over a whole session the endpoint is asked at most once. *)
Lemma session_one_request (answers : list (result string)) (h : host) :
  (length (network (session VERSION answers h)) <= length (network h) + 1)%nat.
Proof.
  destruct answers as [|a rest]; simpl; [lia |].
  rewrite session_done by apply check_version_sets_flag.
  destruct (version_checked h) eqn:H.
  - rewrite check_version_done by assumption; simpl; lia.
  - destruct a as [latest|e].
    + rewrite check_version_response by assumption; simpl.
      rewrite length_app; simpl; lia.
    + rewrite check_version_failure by assumption; simpl.
      rewrite length_app; simpl; lia.
Qed.

(** C6: after any invocation of [check_version], whether the request
    returned or raised, [version_checked] is True, and every later call
    returns at once, leaving the host (and so the network) as it was. *)
Theorem check_version_at_most_once (answer : result string) (h : host) :
  let h1 := snd (check_version VERSION answer h) in
  version_checked h1 = true /\
  (forall later : result string, check_version VERSION later h1 = (Ret tt, h1)) /\
  (forall later : list (result string),
     network (session VERSION later h1) = network h1).
Proof.
  intros h1.
  assert (H1 : version_checked h1 = true) by apply check_version_sets_flag.
  split; [assumption |]. split.
  - intros later. now apply check_version_done.
  - intros later. now rewrite session_done.
Qed.

(** C7: when the endpoint answers with the text [latest], the upgrade
    notification is pushed if and only if [VERSION] is lexicographically
    smaller than [latest]; otherwise the message bar is left as it was. *)
Theorem check_version_notifies_iff_older (latest : string) (h : host) :
  version_checked h = false ->
  let h' := snd (check_version VERSION (Ret latest) h) in
  (messageBar h' = messageBar h ++ [upgrade_message latest VERSION]
     <-> lex_lt VERSION latest) /\
  (messageBar h' = messageBar h <-> ~ lex_lt VERSION latest).
Proof.
  intros H h'. subst h'. rewrite check_version_response by assumption; simpl.
  rewrite <- str_lt_lex.
  destruct (str_lt VERSION latest); simpl.
  - split; split; try congruence; try reflexivity.
    intros E. apply (f_equal length) in E.
    rewrite length_app in E; simpl in E; lia.
  - rewrite app_nil_r. split; split; try congruence; try reflexivity.
    intros E. apply (f_equal length) in E.
    rewrite length_app in E; simpl in E; lia.
Qed.

(** C8: whatever the request does, [check_version] returns normally; when
    the request raised, the exception has been caught and a line naming it
    printed. *)
Theorem check_version_catches (answer : result string) (h : host) :
  fst (check_version VERSION answer h) = Ret tt /\
  (forall e, answer = Raise e -> version_checked h = false ->
     stdout (snd (check_version VERSION answer h))
       = stdout h ++ [failure_line e]).
Proof.
  split.
  - destruct (version_checked h) eqn:H.
    + now rewrite check_version_done.
    + destruct answer as [latest|e].
      * now rewrite check_version_response.
      * now rewrite check_version_failure.
  - intros e -> H. now rewrite check_version_failure.
Qed.

End VersionCheckFacts.

Lemma check_version_notifies_iff_older_witness :
  let h := VersionCheck.Sample.fresh in
  let h' := snd (VersionCheck.check_version "0.0.6" (Ret "0.0.7") h) in
  (VersionCheck.messageBar h'
     = VersionCheck.messageBar h
       ++ [VersionCheck.upgrade_message "0.0.7" "0.0.6"]
     <-> lex_lt "0.0.6" "0.0.7") /\
  (VersionCheck.messageBar h' = VersionCheck.messageBar h
     <-> ~ lex_lt "0.0.6" "0.0.7").
Proof.
  apply (check_version_notifies_iff_older "0.0.6" "0.0.7"
           VersionCheck.Sample.fresh).
  reflexivity.
Defined.

Lemma check_version_catches_witness :
  let h := VersionCheck.Sample.fresh in
  let e := VersionCheck.Sample.timed_out in
  fst (VersionCheck.check_version "0.0.6" (Raise e) h) = Ret tt /\
  VersionCheck.stdout (snd (VersionCheck.check_version "0.0.6" (Raise e) h))
    = VersionCheck.stdout h ++ [VersionCheck.failure_line e].
Proof.
  intros h e.
  destruct (check_version_catches "0.0.6" (Raise e) h) as [Hret Hlog].
  split; [exact Hret | apply (Hlog e); reflexivity].
Defined.

(** ** Replay on project load *)

Section ReplayFacts.

Import Replay.

Context {EEObject VisParams : Type}.
Variable fromJSON : variant -> result EEObject.
Variable json_loads : variant -> result VisParams.

Local Abbreviation update_layer := (update_layer EEObject VisParams fromJSON json_loads).
Local Abbreviation for_each := (for_each EEObject VisParams fromJSON json_loads).
Local Abbreviation _updateLayers := (_updateLayers EEObject VisParams fromJSON json_loads).
Local Abbreviation display_of := (display_of EEObject VisParams fromJSON json_loads).
Local Abbreviation displays := (displays EEObject VisParams fromJSON json_loads).
Local Abbreviation malformed := (malformed EEObject VisParams fromJSON json_loads).
Local Abbreviation detached := (detached EEObject VisParams fromJSON json_loads).
Local Abbreviation failures_isolated :=
  (failures_isolated EEObject VisParams fromJSON json_loads).

Implicit Types (q : qgis EEObject VisParams) (layer : map_layer).

Ltac run := unfold bind, lift, ret, raise, gets, modify, findLayer,
  add_or_update_ee_layer, print; simpl.

(** *** One pass of the loop body *)

Lemma update_layer_legacy layer q :
  customProperty layer "ee-object" = None ->
  update_layer layer q = (Ret Return, printed legacy_warning q).
Proof. intros H. unfold update_layer. rewrite H. reflexivity. Qed.

Lemma update_layer_ok layer q d :
  display_of (proj q) layer = Some d ->
  update_layer layer q = (Ret Next, render [d] q).
Proof.
  unfold display_of, update_layer. intros H.
  destruct (customProperty layer "ee-object") as [json|]; [|discriminate].
  run. destruct (fromJSON json) as [obj|]; [|discriminate].
  destruct (customProperty layer "ee-object-vis") as [v|]; run.
  - destruct (json_loads v) as [parsed|]; [|discriminate].
    destruct (layerTreeRoot (proj q) !! layer_id layer) as [node|];
      [|discriminate].
    destruct (layer_renderer layer) as [r|]; [|discriminate].
    injection H as <-. reflexivity.
  - destruct (layerTreeRoot (proj q) !! layer_id layer) as [node|];
      [|discriminate].
    destruct (layer_renderer layer) as [r|]; [|discriminate].
    injection H as <-. reflexivity.
Qed.

Lemma update_layer_malformed layer q e :
  malformed layer e -> update_layer layer q = (Raise e, q).
Proof.
  intros (json & Hobj & [Hfail | (obj & vis & Hdec & Hvis & Hfail)]);
    unfold update_layer; rewrite Hobj; run.
  - now rewrite Hfail.
  - rewrite Hdec, Hvis. run. now rewrite Hfail.
Qed.

Lemma update_layer_detached layer q :
  detached (proj q) layer ->
  update_layer layer q = (Raise (missing_attribute (proj q) layer), q).
Proof.
  intros ((json & obj & Hobj & Hdec) & Hvis & Hmissing).
  unfold update_layer, missing_attribute; rewrite Hobj; run. rewrite Hdec.
  destruct (customProperty layer "ee-object-vis") as [v|] eqn:E; run.
  - specialize (Hvis v eq_refl).
    destruct (json_loads v) as [parsed|]; [|discriminate].
    destruct (layerTreeRoot (proj q) !! layer_id layer) as [node|];
      [|reflexivity].
    destruct Hmissing as [Hn | Hr]; [discriminate |]. now rewrite Hr.
  - destruct (layerTreeRoot (proj q) !! layer_id layer) as [node|];
      [|reflexivity].
    destruct Hmissing as [Hn | Hr]; [discriminate |]. now rewrite Hr.
Qed.

Lemma missing_attribute_class (p : project) layer :
  exn_class (missing_attribute p layer) = AttributeError.
Proof. unfold missing_attribute. now destruct (layerTreeRoot p !! layer_id layer). Qed.

(** Whatever a pass does, it leaves the project alone: it can only append
    to the rendered displays and to standard output. *)
Lemma update_layer_frame layer q :
  let q' := snd (update_layer layer q) in
  proj q' = proj q /\
  (exists ds, rendered q' = rendered q ++ ds) /\
  (exists lines, stdout q' = stdout q ++ lines).
Proof.
  assert (Hid : forall q0 : qgis EEObject VisParams,
    proj q0 = proj q0 /\ (exists ds, rendered q0 = rendered q0 ++ ds) /\
    (exists lines, stdout q0 = stdout q0 ++ lines)).
  { intros q0. split; [reflexivity|].
    split; exists []; now rewrite app_nil_r. }
  unfold update_layer.
  destruct (customProperty layer "ee-object") as [json|]; run.
  - destruct (fromJSON json) as [obj|]; [|apply Hid].
    destruct (customProperty layer "ee-object-vis") as [v|]; run.
    + destruct (json_loads v) as [parsed|]; [|apply Hid].
      destruct (layerTreeRoot (proj q) !! layer_id layer); [|apply Hid].
      destruct (layer_renderer layer); [|apply Hid]. simpl.
      split; [reflexivity|]. split; [eauto|]. exists []. now rewrite app_nil_r.
    + destruct (layerTreeRoot (proj q) !! layer_id layer); [|apply Hid].
      destruct (layer_renderer layer); [|apply Hid]. simpl.
      split; [reflexivity|]. split; [eauto|]. exists []. now rewrite app_nil_r.
  - split; [reflexivity|]. split; [|eauto]. exists []. now rewrite app_nil_r.
Qed.

(** *** The loop *)

Lemma for_each_cons layer rest q :
  for_each (layer :: rest) q =
    match update_layer layer q with
    | (Ret Next, q') => for_each rest q'
    | (Ret Return, q') => (Ret tt, q')
    | (Raise e, q') => (Raise e, q')
    end.
Proof.
  simpl. unfold bind at 1.
  destruct (update_layer layer q) as [[[|]|e] q']; reflexivity.
Qed.

Lemma render_render ds ds' q : render ds' (render ds q) = render (ds ++ ds') q.
Proof. unfold render; simpl. now rewrite app_assoc. Qed.

Lemma render_nil q : render [] q = q.
Proof. destruct q; unfold render; simpl. now rewrite app_nil_r. Qed.

(** The loop walks through a prefix of layers that all have a display,
    rebuilding each, and goes on with the rest. *)
Lemma for_each_prefix pre rest q :
  Forall (fun layer => is_Some (display_of (proj q) layer)) pre ->
  for_each (pre ++ rest) q = for_each rest (render (displays (proj q) pre) q).
Proof.
  revert q; induction pre as [|layer pre IH]; intros q Hpre.
  - simpl. now rewrite render_nil.
  - inversion Hpre as [|? ? [d Hd] Hpre']; subst.
    rewrite <- app_comm_cons, for_each_cons, (update_layer_ok _ _ _ Hd).
    rewrite IH by exact Hpre'. simpl proj.
    unfold displays; simpl. rewrite Hd. simpl. now rewrite render_render.
Qed.

Lemma for_each_frame layers q :
  let q' := snd (for_each layers q) in
  proj q' = proj q /\
  (exists ds, rendered q' = rendered q ++ ds) /\
  (exists lines, stdout q' = stdout q ++ lines).
Proof.
  revert q; induction layers as [|layer rest IH]; intros q.
  - simpl. split; [reflexivity|]. split; exists []; now rewrite app_nil_r.
  - rewrite for_each_cons.
    pose proof (update_layer_frame layer q) as (Hp & [ds Hr] & [ls Hs]).
    destruct (update_layer layer q) as [[[|]|e] q1]; simpl in *;
      try (split; [assumption|]; split; eauto).
    destruct (IH q1) as (Hp' & [ds' Hr'] & [ls' Hs']).
    split; [congruence|]. split.
    + exists (ds ++ ds'). rewrite Hr', Hr. now rewrite app_assoc.
    + exists (ls ++ ls'). rewrite Hs', Hs. now rewrite app_assoc.
Qed.

Lemma updateLayers_unfold q : _updateLayers q = for_each (ee_layers q) q.
Proof. reflexivity. Qed.

(** Replay is total when every visited layer has a display: each is
    rebuilt, in order. *)
Lemma updateLayers_total q :
  Forall (fun layer => is_Some (display_of (proj q) layer)) (ee_layers q) ->
  _updateLayers q = (Ret tt, render (displays (proj q) (ee_layers q)) q).
Proof.
  intros H. rewrite updateLayers_unfold.
  rewrite <- (app_nil_r (ee_layers q)) at 1.
  now rewrite for_each_prefix.
Qed.

(** A legacy layer ends the replay: the warning is printed and no layer
    after it is visited. *)
Lemma updateLayers_legacy_returns q pre layer post :
  ee_layers q = pre ++ layer :: post ->
  Forall (fun l => is_Some (display_of (proj q) l)) pre ->
  customProperty layer "ee-object" = None ->
  _updateLayers q
    = (Ret tt, printed legacy_warning (render (displays (proj q) pre) q)).
Proof.
  intros Hls Hpre Hlegacy. rewrite updateLayers_unfold, Hls.
  rewrite for_each_prefix by assumption.
  now rewrite for_each_cons, update_layer_legacy.
Qed.

(** C5, as the code has it: when the stored expression or the
    visualization spec of a visited layer fails to deserialize, the
    exception leaves [_updateLayers]; the layers visited before it have
    been rebuilt and none after it is. *)
Theorem updateLayers_malformed_aborts q pre bad post e :
  ee_layers q = pre ++ bad :: post ->
  Forall (fun l => is_Some (display_of (proj q) l)) pre ->
  malformed bad e ->
  _updateLayers q = (Raise e, render (displays (proj q) pre) q).
Proof.
  intros Hls Hpre Hbad. rewrite updateLayers_unfold, Hls.
  rewrite for_each_prefix by assumption.
  now rewrite for_each_cons, (update_layer_malformed _ _ e Hbad).
Qed.

(** C9: [_updateLayers] leaves the project, and with it the custom
    properties of every layer, exactly as it found them; it only appends to
    the displays handed to the rendering pipeline (and to standard
    output). *)
Theorem updateLayers_read_only q :
  let q' := snd (_updateLayers q) in
  proj q' = proj q /\
  custom_properties <$> mapLayers (proj q')
    = custom_properties <$> mapLayers (proj q) /\
  (exists ds, rendered q' = rendered q ++ ds) /\
  (exists lines, stdout q' = stdout q ++ lines).
Proof.
  intros q'. subst q'. rewrite updateLayers_unfold.
  destruct (for_each_frame (ee_layers q) q) as (Hp & Hr & Hs).
  rewrite Hp. auto.
Qed.

(** C10: when the replay reaches a layer whose stored data deserializes
    but whose tree node or renderer is missing, the attribute access on
    [None] raises [AttributeError] out of [_updateLayers], and none of the
    remaining layers is rebuilt. *)
Theorem updateLayers_detached_aborts q pre layer post :
  ee_layers q = pre ++ layer :: post ->
  Forall (fun l => is_Some (display_of (proj q) l)) pre ->
  detached (proj q) layer ->
  exn_class (missing_attribute (proj q) layer) = AttributeError /\
  _updateLayers q
    = (Raise (missing_attribute (proj q) layer),
       render (displays (proj q) pre) q).
Proof.
  intros Hls Hpre Hdet. split; [apply missing_attribute_class|].
  rewrite updateLayers_unfold, Hls.
  rewrite for_each_prefix by assumption.
  rewrite for_each_cons, update_layer_detached by assumption.
  reflexivity.
Qed.

End ReplayFacts.

(** *** The sample project *)

Section SampleReplay.

Import Replay Replay.Sample.

Local Abbreviation replay := (_updateLayers string string fromJSON json_loads).

(** C1, evaluated: with a legacy layer ahead of a well-formed one the
    replay does not raise and prints the warning, but it returns there and
    then, and the well-formed layer is not reconstructed. *)
Theorem updateLayers_legacy_then_well_formed :
  let q := loaded [old_layer; dem_layer] in
  legacy old_layer = true /\
  well_formed string string fromJSON json_loads (proj q) dem_layer = true /\
  replay q = (Ret tt, printed legacy_warning q) /\
  ~ reconstructed fromJSON json_loads dem_layer (snd (replay q)).
Proof.
  intros q.
  assert (Hrun : replay q = (Ret tt, printed legacy_warning q)).
  { apply (updateLayers_legacy_returns fromJSON json_loads q [] old_layer
             [dem_layer]); [reflexivity | constructor | reflexivity]. }
  split; [reflexivity|]. split; [reflexivity|]. split; [exact Hrun|].
  intros (d & _ & Hin). rewrite Hrun in Hin. simpl in Hin.
  inversion Hin.
Qed.

(** C5 fails on the code: with the sample deserializers, a layer whose
    stored expression is not JSON keeps the well-formed layer after it from
    being reconstructed. *)
Lemma replay_failures_not_isolated :
  ~ failures_isolated string string fromJSON json_loads.
Proof.
  intros H.
  pose (q := loaded [broken_layer; dem_layer]).
  pose (e := mk_exn JSONDecodeError "Expecting value: line 1 column 1 (char 0)").
  assert (Hbad : malformed string string fromJSON json_loads broken_layer e).
  { exists (VStr "not json"). split; [reflexivity | left; reflexivity]. }
  assert (Hls : ee_layers q = [] ++ broken_layer :: [dem_layer])
    by reflexivity.
  assert (Hrun : replay q = (Raise e, q)).
  { rewrite (updateLayers_malformed_aborts fromJSON json_loads q [] broken_layer
               [dem_layer] e Hls (List.Forall_nil _) Hbad).
    reflexivity. }
  destruct (H q broken_layer e) with (good := dem_layer)
    as (d & _ & Hin).
  - rewrite Hls. simpl. apply list_elem_of_here.
  - exact Hbad.
  - apply list_elem_of_further, list_elem_of_here.
  - reflexivity.
  - fold replay in Hin. rewrite Hrun in Hin. simpl in Hin. inversion Hin.
Qed.

Lemma updateLayers_malformed_aborts_witness :
  replay (loaded [dem_layer; broken_layer; dem_layer])
    = (Raise (mk_exn JSONDecodeError "Expecting value: line 1 column 1 (char 0)"),
       render [dem_display] (loaded [dem_layer; broken_layer; dem_layer])).
Proof.
  apply (updateLayers_malformed_aborts fromJSON json_loads
           (loaded [dem_layer; broken_layer; dem_layer])
           [dem_layer] broken_layer [dem_layer]).
  - reflexivity.
  - constructor; [exists dem_display; reflexivity | constructor].
  - exists (VStr "not json"). split; [reflexivity | left; reflexivity].
Defined.

Lemma updateLayers_detached_aborts_witness :
  exn_class (missing_attribute
               (proj (loaded [dem_layer; bare_layer; dem_layer])) bare_layer)
    = AttributeError /\
  replay (loaded [dem_layer; bare_layer; dem_layer])
    = (Raise (none_has_no_attribute "opacity"),
       render [dem_display] (loaded [dem_layer; bare_layer; dem_layer])).
Proof.
  apply (updateLayers_detached_aborts fromJSON json_loads
           (loaded [dem_layer; bare_layer; dem_layer])
           [dem_layer] bare_layer [dem_layer]).
  - reflexivity.
  - constructor; [exists dem_display; reflexivity | constructor].
  - split; [|split].
    + exists (VStr "{type: Invocation}"), "{type: Invocation}".
      split; reflexivity.
    + intros vis Hvis. vm_compute in Hvis. injection Hvis as <-. reflexivity.
    + right. reflexivity.
Defined.

End SampleReplay.

(** ** Export as GeoTIFF *)

Section ExportFacts.

Import ExportGeoTIFF.

Variable transform : string -> string -> rectangle -> rectangle.
Variable remote_export : request -> result raster.

Local Abbreviation processAlgorithm :=
  (processAlgorithm transform remote_export).
Local Abbreviation reproject := (reproject transform).

(** The request [processAlgorithm] builds once the layer and the extent
    are known. *)
Lemma processAlgorithm_sends alg params w name e :
  raster_layers alg !! EE_IMAGE params = Some name ->
  EXTENT params = Some e ->
  let crs := PROJECTION params in
  let r := mk_request name
             (if String.eqb (ext_crs e) crs then e else reproject e crs)
             (SCALE params) crs in
  processAlgorithm alg params w =
    match remote_export r with
    | Ret img =>
        (Ret tt, {| sent := sent w ++ [r];
                    files := <[OUTPUT params := img]> (files w) |})
    | Raise x => (Raise x, {| sent := sent w ++ [r]; files := files w |})
    end.
Proof.
  intros Hname Hext crs r. unfold ExportGeoTIFF.processAlgorithm, bind.
  rewrite Hname, Hext. unfold ret, send, bind, modify, lift, write_file; simpl.
  fold crs. fold r. now destruct (remote_export r).
Qed.

(** Whatever the source CRS, the extent of a request that is sent is
    expressed in the target CRS. *)
Lemma request_region_in_target_crs (e : extent) (crs : string) :
  ext_crs (if String.eqb (ext_crs e) crs then e else reproject e crs) = crs.
Proof.
  destruct (String.eqb (ext_crs e) crs) eqn:E; [|reflexivity].
  now apply String.eqb_eq.
Qed.

Lemma processAlgorithm_no_layer alg params w :
  raster_layers alg !! EE_IMAGE params = None ->
  processAlgorithm alg params w
    = (Raise (mk_exn IndexError "list index out of range"), w).
Proof.
  intros Hname. unfold ExportGeoTIFF.processAlgorithm, bind.
  now rewrite Hname.
Qed.

Lemma processAlgorithm_no_extent alg params w name :
  raster_layers alg !! EE_IMAGE params = Some name ->
  EXTENT params = None ->
  processAlgorithm alg params w
    = (Raise (mk_exn ValueError "Invalid parameters: extent is required"), w).
Proof.
  intros Hname Hext. unfold ExportGeoTIFF.processAlgorithm, bind.
  now rewrite Hname, Hext.
Qed.

(** The degenerate case: no index names a layer of an empty list. *)
Lemma export_empty_layer_list params w :
  processAlgorithm (mk_algorithm []) params w
    = (Raise (mk_exn IndexError "list index out of range"), w).
Proof. now apply processAlgorithm_no_layer. Qed.

(** C2: when the extent's CRS differs from the target CRS, the one request
    sent carries the extent reprojected into the target CRS; and when the
    service, which answers in the CRS it is asked for, returns a raster,
    the file written at the output path reports the target CRS. *)
Theorem export_reprojects_extent alg params w name e img :
  (forall r i, remote_export r = Ret i -> raster_crs i = req_crs r) ->
  raster_layers alg !! EE_IMAGE params = Some name ->
  EXTENT params = Some e ->
  ext_crs e <> PROJECTION params ->
  let crs := PROJECTION params in
  let r := mk_request name (reproject e crs) (SCALE params) crs in
  remote_export r = Ret img ->
  let w' := snd (processAlgorithm alg params w) in
  sent w' = sent w ++ [r] /\
  ext_crs (req_region r) = crs /\
  ext_rect (req_region r) = transform (ext_crs e) crs (ext_rect e) /\
  files w' !! OUTPUT params = Some img /\
  raster_crs img = crs.
Proof.
  intros Hservice Hname Hext Hne crs r Himg w'. subst w' r crs.
  rewrite (processAlgorithm_sends alg params w name e Hname Hext).
  apply String.eqb_neq in Hne. cbv zeta. rewrite Hne, Himg. simpl.
  repeat split.
  - apply lookup_insert_eq.
  - apply (Hservice _ img Himg).
Qed.

(** C3: with a valid layer selection and no extent, [processAlgorithm]
    raises [ValueError] and leaves the world as it was: no request has been
    sent and no file written. *)
Theorem export_requires_extent alg params w name :
  raster_layers alg !! EE_IMAGE params = Some name ->
  EXTENT params = None ->
  exists e, exn_class e = ValueError /\
    processAlgorithm alg params w = (Raise e, w).
Proof.
  intros Hname Hext. eexists. split; [|now apply (processAlgorithm_no_extent _ _ _ name)].
  reflexivity.
Qed.

(** C4: when the selected index names no tracked raster layer,
    [processAlgorithm] raises [IndexError] and leaves the world as it was,
    so no output file is produced. *)
Theorem export_layer_not_found alg params w :
  raster_layers alg !! EE_IMAGE params = None ->
  exists e, exn_class e = IndexError /\
    processAlgorithm alg params w = (Raise e, w).
Proof.
  intros Hname. eexists. split; [|now apply processAlgorithm_no_layer].
  reflexivity.
Qed.

End ExportFacts.

Section SampleExport.

Import ExportGeoTIFF ExportGeoTIFF.Sample.

Local Abbreviation export := (processAlgorithm transform remote_export).

Lemma export_reprojects_extent_witness :
  let crs := "EPSG:4326" in
  let r := mk_request "DEM_WEB" (reproject transform vancouver_3857 crs) 30 crs in
  let w' := snd (export (mk_algorithm ["DEM_WEB"]) to_wgs84 nothing_yet) in
  sent w' = sent nothing_yet ++ [r] /\
  ext_crs (req_region r) = crs /\
  ext_rect (req_region r)
    = transform "EPSG:3857" crs (ext_rect vancouver_3857) /\
  files w' !! "test_extent_transformed.tif"
    = Some (mk_raster "EPSG:4326" 600 600 1) /\
  raster_crs (mk_raster "EPSG:4326" 600 600 1) = crs.
Proof.
  apply (export_reprojects_extent transform remote_export
           (mk_algorithm ["DEM_WEB"]) to_wgs84 nothing_yet "DEM_WEB"
           vancouver_3857 (mk_raster "EPSG:4326" 600 600 1)).
  - intros r i Hi. injection Hi as <-. reflexivity.
  - reflexivity.
  - reflexivity.
  - discriminate.
  - reflexivity.
Defined.

Lemma export_requires_extent_witness :
  exists e, exn_class e = ValueError /\
    export (mk_algorithm ["DEM"]) no_extent nothing_yet
      = (Raise e, nothing_yet).
Proof.
  apply (export_requires_extent transform remote_export
           (mk_algorithm ["DEM"]) no_extent nothing_yet "DEM");
    reflexivity.
Defined.

Lemma export_layer_not_found_witness :
  exists e, exn_class e = IndexError /\
    export (mk_algorithm []) no_extent nothing_yet = (Raise e, nothing_yet).
Proof.
  apply (export_layer_not_found transform remote_export
           (mk_algorithm []) no_extent nothing_yet).
  reflexivity.
Defined.

End SampleExport.

(** ** More on the version check *)

Lemma str_lt_irrefl (a : string) : str_lt a a = false.
Proof.
  induction a as [|x a IH]; simpl; [reflexivity|].
  now rewrite N.ltb_irrefl.
Qed.

Lemma str_lt_common_prefix (p a b : string) :
  str_lt (p +:+ a) (p +:+ b) = str_lt a b.
Proof.
  induction p as [|x p IH]; simpl; [reflexivity|].
  now rewrite N.ltb_irrefl.
Qed.

Lemma str_lt_asym (a b : string) : str_lt a b = true -> str_lt b a = false.
Proof.
  revert b; induction a as [|x a IH]; intros [|y b]; simpl; try congruence.
  destruct (N.ltb_spec (N_of_ascii x) (N_of_ascii y)) as [Hxy|Hxy].
  - intros _. destruct (N.ltb_spec (N_of_ascii y) (N_of_ascii x)); [lia|].
    reflexivity.
  - destruct (N.ltb_spec (N_of_ascii y) (N_of_ascii x)) as [Hyx|Hyx];
      [discriminate|]. apply IH.
Qed.

Section VersionCheckSessions.

Import VersionCheck.

Variable VERSION : string.

Lemma session_cons (a : result string) (rest : list (result string)) (h : host) :
  session VERSION (a :: rest) h = snd (check_version VERSION a h).
Proof.
  simpl. apply session_done, check_version_sets_flag.
Qed.

(** Over a whole session at most one upgrade notification is pushed,
    however many times [check_version] is called and whatever the endpoint
    answers. *)
Theorem session_notifies_at_most_once
    (answers : list (result string)) (h : host) :
  (length (messageBar (session VERSION answers h))
     <= length (messageBar h) + 1)%nat.
Proof.
  destruct answers as [|a rest]; [simpl; lia|].
  rewrite session_cons.
  destruct (version_checked h) eqn:H.
  - rewrite check_version_done by assumption; simpl; lia.
  - destruct a as [latest|e].
    + rewrite check_version_response by assumption; simpl.
      rewrite length_app. destruct (str_lt VERSION latest); simpl; lia.
    + rewrite check_version_failure by assumption; simpl; lia.
Qed.

(** The network traffic of a session, exactly: nothing when the flag was
    already set or no call is made, and otherwise the single GET of the
    fixed endpoint with a timeout of 10. *)
Theorem session_network (answers : list (result string)) (h : host) :
  network (session VERSION answers h) =
    network h ++
    (if version_checked h then []
     else match answers with
          | [] => []
          | _ :: _ => [mk_get latest_version_url 10]
          end).
Proof.
  destruct answers as [|a rest].
  - simpl. destruct (version_checked h); now rewrite app_nil_r.
  - rewrite session_cons. destruct (version_checked h) eqn:H.
    + rewrite check_version_done by assumption; simpl.
      now rewrite app_nil_r.
    + destruct a as [latest|e].
      * now rewrite check_version_response.
      * now rewrite check_version_failure.
Qed.

(** A failure of the [requests] family, a timeout included, is reported by
    the HTTP error line carrying [str(e)]; nothing is pushed to the message
    bar. *)
Theorem check_version_reports_request_failure (e : exn) (h : host) :
  version_checked h = false ->
  exn_class e ∈ [Timeout; ConnectionError; HTTPError; RequestException] ->
  let h' := snd (check_version VERSION (Raise e) h) in
  stdout h' = stdout h ++
    ["HTTP error occurred when checking for recent plugin version: "
     +:+ exn_str e] /\
  messageBar h' = messageBar h.
Proof.
  intros H Hclass h'. subst h'.
  rewrite check_version_failure by assumption; simpl.
  split; [|reflexivity]. f_equal. f_equal.
  unfold failure_line, isinstance. destruct e as [c msg]; simpl in *.
  repeat (apply elem_of_cons in Hclass as [->|Hclass]; [reflexivity|]).
  inversion Hclass.
Qed.

(** A malformed answer ([ValueError], or [json.JSONDecodeError] below it)
    is reported by the value error line, and every other exception by the
    generic one. *)
Theorem check_version_reports_other_failures (e : exn) (h : host) :
  version_checked h = false ->
  let h' := snd (check_version VERSION (Raise e) h) in
  (exn_class e ∈ [ValueError; JSONDecodeError] ->
   stdout h' = stdout h ++ ["Value error occurred: " +:+ exn_str e]) /\
  (exn_class e ∈ [Exception; TypeError; AttributeError; IndexError; EEException] ->
   stdout h' = stdout h ++ ["An unexpected error occurred: " +:+ exn_str e]).
Proof.
  intros H h'. subst h'.
  rewrite check_version_failure by assumption; simpl.
  unfold failure_line, isinstance. destruct e as [c msg]; simpl.
  split; intros Hclass;
    repeat (apply elem_of_cons in Hclass as [->|Hclass]; [reflexivity|]);
    inversion Hclass.
Qed.

(** When the endpoint publishes exactly the local version, the call is
    silent: no notification and no output. *)
Theorem check_version_same_version_silent (h : host) :
  version_checked h = false ->
  check_version VERSION (Ret VERSION) h =
    (Ret tt,
     {| version_checked := true;
        network := network h ++ [mk_get latest_version_url 10];
        messageBar := messageBar h;
        stdout := stdout h |}).
Proof.
  intros H. rewrite check_version_response by assumption.
  rewrite str_lt_irrefl. now rewrite app_nil_r.
Qed.

End VersionCheckSessions.

(** A release that goes from segment 9 to segment 10 is never announced:
    with the local version [p9s] and the published version [p10t], for any
    common prefix [p] and any tails, the message bar is left alone. *)
Theorem check_version_misses_two_digit_upgrade
    (p s t : string) (h : VersionCheck.host) :
  VersionCheck.version_checked h = false ->
  VersionCheck.messageBar
    (snd (VersionCheck.check_version (p +:+ "9" +:+ s)
            (Ret (p +:+ "10" +:+ t)) h))
  = VersionCheck.messageBar h.
Proof.
  intros H. rewrite check_version_response by assumption; simpl.
  rewrite str_lt_common_prefix. simpl. now rewrite app_nil_r.
Qed.

(** The notification never goes both ways: if [b] is announced to a user
    of [a], then [a] is not announced to a user of [b]. *)
Theorem check_version_one_direction (a b : string) (h : VersionCheck.host) :
  VersionCheck.version_checked h = false ->
  VersionCheck.messageBar (snd (VersionCheck.check_version a (Ret b) h))
    <> VersionCheck.messageBar h ->
  VersionCheck.messageBar (snd (VersionCheck.check_version b (Ret a) h))
    = VersionCheck.messageBar h.
Proof.
  intros H. rewrite !check_version_response by assumption; simpl.
  destruct (str_lt a b) eqn:E.
  - intros _. rewrite (str_lt_asym a b E). now rewrite app_nil_r.
  - rewrite app_nil_r. congruence.
Qed.

(** ** More on the replay *)

Section ReplayOutcomes.

Import Replay.

Context {EEObject VisParams : Type}.
Variable fromJSON : variant -> result EEObject.
Variable json_loads : variant -> result VisParams.

Local Abbreviation for_each := (for_each EEObject VisParams fromJSON json_loads).
Local Abbreviation _updateLayers :=
  (_updateLayers EEObject VisParams fromJSON json_loads).
Local Abbreviation display_of :=
  (display_of EEObject VisParams fromJSON json_loads).
Local Abbreviation displays := (displays EEObject VisParams fromJSON json_loads).
Local Abbreviation malformed := (malformed EEObject VisParams fromJSON json_loads).
Local Abbreviation detached := (detached EEObject VisParams fromJSON json_loads).

Implicit Types (q : qgis EEObject VisParams) (layer : map_layer)
  (p : project).

(** Why a layer has no display: it is a legacy layer, its stored data does
    not deserialize, or its node or renderer is missing. *)
Lemma display_of_None_cases p layer :
  display_of p layer = None ->
  customProperty layer "ee-object" = None \/
  (exists e, malformed layer e) \/
  detached p layer.
Proof.
  unfold Replay.display_of, Replay.malformed, Replay.detached.
  destruct (customProperty layer "ee-object") as [json|]; [|now left].
  intros H. right.
  destruct (fromJSON json) as [obj|e] eqn:Hdec; [|left; eauto 6].
  destruct (customProperty layer "ee-object-vis") as [v|].
  - destruct (json_loads v) as [parsed|e] eqn:Hvis.
    + right. split; [eauto|]. split.
      * intros vis [= <-]. now rewrite Hvis.
      * destruct (layerTreeRoot p !! layer_id layer); [|now left].
        destruct (layer_renderer layer); [discriminate | now right].
    + left. exists e, json. split; [reflexivity|]. right. eauto 6.
  - right. split; [eauto|]. split; [discriminate|].
    destruct (layerTreeRoot p !! layer_id layer); [|now left].
    destruct (layer_renderer layer); [discriminate | now right].
Qed.

(** A list splits into its longest prefix of layers that have a display and
    the rest. *)
Lemma displayed_prefix p (ls : list map_layer) :
  exists pre post, ls = pre ++ post /\
    Forall (fun l => is_Some (display_of p l)) pre /\
    match post with
    | [] => True
    | layer :: _ => display_of p layer = None
    end.
Proof.
  induction ls as [|layer ls (pre & post & -> & Hpre & Hpost)].
  - exists [], []. repeat split; constructor.
  - destruct (display_of p layer) as [d|] eqn:Hd.
    + exists (layer :: pre), post. repeat split; [|assumption].
      constructor; [rewrite Hd; eauto | assumption].
    + exists [], (layer :: pre ++ post). repeat split; [constructor | assumption].
Qed.

(** The loop in full: it rebuilds the layers of the longest prefix that
    have a display, in order, and then either is done, or returns at a
    legacy layer after printing the warning, or raises at a layer that is
    malformed or detached. *)
Lemma for_each_outcomes (ls : list map_layer) q :
  exists pre post, ls = pre ++ post /\
    Forall (fun l => is_Some (display_of (proj q) l)) pre /\
    let q1 := render (displays (proj q) pre) q in
    match post with
    | [] => for_each ls q = (Ret tt, q1)
    | layer :: _ =>
        (customProperty layer "ee-object" = None /\
         for_each ls q = (Ret tt, printed legacy_warning q1)) \/
        (exists e, for_each ls q = (Raise e, q1) /\
           (malformed layer e \/
            detached (proj q) layer /\ e = missing_attribute (proj q) layer))
    end.
Proof.
  destruct (displayed_prefix (proj q) ls) as (pre & post & -> & Hpre & Hpost).
  exists pre, post. split; [reflexivity|]. split; [assumption|].
  intros q1. rewrite (for_each_prefix fromJSON json_loads) by assumption.
  fold q1. destruct post as [|layer post]; [reflexivity|].
  rewrite for_each_cons.
  destruct (display_of_None_cases _ _ Hpost) as [Hleg | [[e Hbad] | Hdet]].
  - left. split; [assumption|]. now rewrite update_layer_legacy.
  - right. exists e. split; [|now left].
    now rewrite (update_layer_malformed fromJSON json_loads layer q1 e Hbad).
  - right. exists (missing_attribute (proj q) layer). split; [|now right].
    now rewrite (update_layer_detached fromJSON json_loads layer q1 Hdet).
Qed.


(** A replay prints the legacy warning at most once, however many legacy
    layers the project holds, and prints nothing else. *)
Theorem updateLayers_warns_at_most_once q :
  let q' := snd (_updateLayers q) in
  stdout q' = stdout q \/ stdout q' = stdout q ++ [legacy_warning].
Proof.
  intros q'. subst q'. rewrite updateLayers_unfold.
  destruct (for_each_outcomes (ee_layers q) q) as (pre & [|layer post] & _ & _ & H);
    simpl in H.
  - rewrite H. now left.
  - destruct H as [[_ ->] | (e & -> & _)]; [now right | now left].
Qed.

(** Silence means completeness: when a replay returns without raising and
    without printing, every marked layer has a display and all of them have
    been handed to the rendering pipeline, in iteration order. *)
Theorem updateLayers_silent_is_complete q :
  fst (_updateLayers q) = Ret tt ->
  stdout (snd (_updateLayers q)) = stdout q ->
  Forall (fun l => is_Some (display_of (proj q) l)) (ee_layers q) /\
  rendered (snd (_updateLayers q))
    = rendered q ++ displays (proj q) (ee_layers q).
Proof.
  rewrite updateLayers_unfold.
  destruct (for_each_outcomes (ee_layers q) q)
    as (pre & [|layer post] & Hls & Hpre & H); simpl in H.
  - rewrite H, Hls, app_nil_r. simpl. auto.
  - destruct H as [[_ ->] | (e & -> & _)]; simpl.
    + intros _ Hout. apply (f_equal length) in Hout.
      rewrite length_app in Hout; simpl in Hout; lia.
    + discriminate.
Qed.

(** The number of displays a replay rebuilds never exceeds the number of
    marked layers. *)
Theorem updateLayers_rebuilds_at_most_marked q :
  (length (rendered (snd (_updateLayers q)))
     <= length (rendered q) + length (ee_layers q))%nat.
Proof.
  rewrite updateLayers_unfold.
  destruct (for_each_outcomes (ee_layers q) q)
    as (pre & post & Hls & Hpre & H).
  assert (Hlen : (length (displays (proj q) pre) <= length pre)%nat).
  { unfold Replay.displays, omap. clear.
    induction pre as [|l pre IH]; simpl; [lia|].
    destruct (display_of (proj q) l); simpl; lia. }
  assert (Hall : (length pre <= length (ee_layers q))%nat)
    by (rewrite Hls, length_app; lia).
  destruct post as [|layer post]; simpl in H.
  - rewrite H; simpl. rewrite length_app. lia.
  - destruct H as [[_ ->] | (e & -> & _)]; simpl; rewrite length_app; lia.
Qed.

End ReplayOutcomes.

Section ReplayUniform.

Import Replay.

Context {EEObject VisParams : Type}.
Variable fromJSON : variant -> result EEObject.
Variable json_loads : variant -> result VisParams.

Local Abbreviation update_layer :=
  (update_layer EEObject VisParams fromJSON json_loads).
Local Abbreviation for_each := (for_each EEObject VisParams fromJSON json_loads).
Local Abbreviation _updateLayers :=
  (_updateLayers EEObject VisParams fromJSON json_loads).

Implicit Types (q : qgis EEObject VisParams) (layer : map_layer).

(** [q] after the displays [ds] and the lines [out] have been added. *)
Local Abbreviation extended q ds out :=
  (mk_qgis (proj q) (rendered q ++ ds) (stdout q ++ out)).





(** A project without marked layers (an empty project included) is left
    alone: nothing is rebuilt, nothing printed, nothing raised. *)
Theorem updateLayers_without_ee_layers q :
  Forall (fun layer => is_ee_layer layer = false) (mapLayers (proj q)) ->
  _updateLayers q = (Ret tt, q).
Proof.
  intros H. rewrite updateLayers_unfold. unfold ee_layers.
  induction H as [|layer ls Hl _ IH]; [reflexivity|].
  simpl. now rewrite Hl.
Qed.


End ReplayUniform.

(** ** The plugin object *)

Section PluginFacts.

Import Plugin.

Variable PLUGIN_DIR : string.
Variable path_join : list string -> string.
Variable path_exists : string -> bool.
Variable qVersion : string.

Local Abbreviation __init__ :=
  (__init__ PLUGIN_DIR path_join path_exists qVersion).
Local Abbreviation locale_path_of := (locale_path_of PLUGIN_DIR path_join).

(** The calls [__init__] makes for the translator. *)
Lemma init_runs (userLocale project : option string) (a : app) :
  let path := locale_path_of userLocale in
  __init__ userLocale project a =
    (Ret (mk_plugin project None None
            (if path_exists path then Some path else None) None None),
     {| registry := registry a;
        calls := calls a ++
          (if path_exists path then
             QTranslator_load path ::
             (if str_lt "4.3.3" qVersion then [installTranslator path] else [])
           else []) ++
          [register_data_provider; updated_connect;
           setup_logger "Google Earth Engine Plugin"];
        stdout := stdout a |}).
Proof.
  intros path. unfold Plugin.__init__. fold path.
  generalize (str_lt "4.3.3" qVersion) as newer. intros newer.
  unfold bind, invoke, modify, ret; simpl.
  destruct (path_exists path), newer; simpl; now rewrite <- ?app_assoc.
Qed.

(** The plugin's locale is at most two characters long; a short setting is
    taken whole, and a missing setting, which [str] turns into the text
    None, gives the locale No. *)
Theorem init_locale (userLocale : option string) :
  (String.length (locale_of userLocale) <= 2)%nat /\
  (forall s, userLocale = Some s -> (String.length s <= 2)%nat ->
     locale_of userLocale = s) /\
  (userLocale = None -> locale_of userLocale = "No").
Proof.
  unfold locale_of. split; [|split].
  - destruct (py_str userLocale) as [|c [|c' s]]; simpl; lia.
  - intros s -> Hs. simpl. destruct s as [|c [|c' [|c'' s]]]; simpl in *;
      try reflexivity; lia.
  - now intros ->.
Qed.

(** The translator is loaded exactly when the locale file exists, and
    installed exactly when, in addition, the Qt version string is above
    4.3.3 in string order. *)
Theorem init_translator (userLocale project : option string) (a : app) :
  let path := locale_path_of userLocale in
  let '(_, a') := __init__ userLocale project a in
  exists new, calls a' = calls a ++ new /\
    (QTranslator_load path ∈ new <-> path_exists path = true) /\
    (installTranslator path ∈ new <->
       path_exists path = true /\ lex_lt "4.3.3" qVersion).
Proof.
  intros path. rewrite init_runs. fold path.
  pose proof (str_lt_lex "4.3.3" qVersion) as Hlex. revert Hlex.
  generalize (str_lt "4.3.3" qVersion) as newer. intros newer Hlex.
  eexists; split; [reflexivity|].
  destruct (path_exists path), newer; simpl; split; split; intros H;
    repeat match goal with
    | H : _ /\ _ |- _ => destruct H
    | H : _ ∈ _ :: _ |- _ => apply elem_of_cons in H as [H|H]
    | H : _ ∈ [] |- _ => inversion H
    end;
    try discriminate; try reflexivity;
    try (split; [reflexivity | now apply Hlex]);
    try (apply list_elem_of_here);
    try (apply list_elem_of_further, list_elem_of_here);
    try (apply Hlex in H; discriminate);
    try match goal with
        | H : lex_lt _ _ |- _ => apply Hlex in H; discriminate
        end.
Qed.

(** With a Qt version string whose first character is below the digit 4 (a
    version 10 and up among them) no translator is ever installed, locale
    file or not. *)
Theorem init_low_version_no_translator
    (c : ascii) (rest : string) (userLocale project : option string)
    (a : app) :
  qVersion = String c rest ->
  (N_of_ascii c < N_of_ascii "4")%N ->
  let '(_, a') := __init__ userLocale project a in
  exists new, calls a' = calls a ++ new /\
    forall path, installTranslator path ∉ new.
Proof.
  intros Hq Hc.
  assert (Hlt : str_lt "4.3.3" qVersion = false).
  { rewrite Hq. change (str_lt "4.3.3" (String c rest)) with
      (if (N_of_ascii "4" <? N_of_ascii c)%N then true
       else if (N_of_ascii c <? N_of_ascii "4")%N then false
       else str_lt ".3.3" rest).
    destruct (N.ltb_spec (N_of_ascii "4") (N_of_ascii c)); [lia|].
    destruct (N.ltb_spec (N_of_ascii c) (N_of_ascii "4")); [reflexivity|lia]. }
  rewrite init_runs, Hlt. simpl.
  eexists; split; [reflexivity|]. intros path Hin.
  destruct (path_exists (locale_path_of userLocale)); simpl in Hin;
    repeat (apply elem_of_cons in Hin as [Hin|Hin]; [discriminate|]);
    inversion Hin.
Qed.

(** Unloading a plugin that was only constructed raises [AttributeError]
    for the attribute [provider], which [__init__] does not assign; the
    host is left as the constructor left it, the logger still set up. *)
Theorem unload_after_init_raises
    (userLocale project : option string) (deleting : delete_outcome)
    (a : app) :
  let '(r, a1) := __init__ userLocale project a in
  exists self, r = Ret self /\
    unload self deleting a1 =
      (Raise (mk_exn AttributeError
                "'GoogleEarthEnginePlugin' object has no attribute 'provider'"),
       a1).
Proof.
  rewrite init_runs. eexists; split; [reflexivity|]. reflexivity.
Qed.

(** A configuration update that arrives after construction, before the
    action has been created, raises [AttributeError] in the connected
    slot. *)
Theorem config_update_after_init_raises
    (translate : string -> string) (userLocale project : option string)
    (a : app) :
  let '(r, a1) := __init__ userLocale project a in
  exists self, r = Ret self /\
    on_config_updated translate self a1 =
      (Raise (mk_exn AttributeError
                "'GoogleEarthEnginePlugin' object has no attribute 'set_cloud_project_action'"),
       a1).
Proof.
  rewrite init_runs. eexists; split; [reflexivity|]. reflexivity.
Qed.

End PluginFacts.

Section UnloadFacts.

Import Plugin.

(** What [unload] does once the attribute [provider] is assigned and
    [deleteLater] returns or raises [RuntimeError]. *)
Lemma unload_runs (self : plugin) (p : string) (deleting : delete_outcome)
    (a : app) :
  provider self = Some p ->
  (forall e, deleting <> RaisesOther e) ->
  unload self deleting a =
    (Ret tt,
     {| registry :=
          if bool_decide (p ∈ registry a)
          then List.filter (fun x => negb (String.eqb x p)) (registry a)
          else registry a;
        calls := calls a ++
          match menu self with Some m => [removeAction m] | None => [] end ++
          match toolButton self with Some b => [deleteLater b] | None => [] end ++
          (if bool_decide (p ∈ registry a) then [removeProvider p] else []) ++
          [teardown_logger];
        stdout := stdout a ++
          match toolButton self, deleting with
          | Some _, RaisesRuntimeError e => ["Error deleting toolButton: " +:+ e]
          | _, _ => []
          end |}).
Proof.
  intros Hp Hdel. unfold unload. rewrite Hp.
  unfold bind, invoke, print, modify, ret, raise, gets, getattr; simpl.
  destruct (menu self) as [m|], (toolButton self) as [b|]; simpl;
    try destruct deleting as [|msg|e]; simpl;
    try (now destruct (Hdel e));
    destruct (bool_decide (p ∈ registry a)); simpl;
    rewrite <- ?app_assoc, ?app_nil_r; reflexivity.
Qed.

Lemma filter_other_mem (p x : string) (l : list string) :
  x ∈ List.filter (fun y => negb (String.eqb y p)) l <-> x ∈ l /\ x <> p.
Proof.
  rewrite !list_elem_of_In, List.filter_In.
  destruct (String.eqb_spec x p); simpl; intuition congruence.
Qed.

(** Once the provider is assigned, [unload] completes whether
    [deleteLater] returns or raises [RuntimeError]: the provider is no
    longer registered, every other provider still is, and the last call
    tears the logger down. *)
Theorem unload_completes (self : plugin) (p : string)
    (deleting : delete_outcome) (a : app) :
  provider self = Some p ->
  (forall e, deleting <> RaisesOther e) ->
  let '(r, a') := unload self deleting a in
  r = Ret tt /\
  (p ∉ registry a') /\
  (forall x, x <> p -> x ∈ registry a' <-> x ∈ registry a) /\
  last (calls a') = Some teardown_logger.
Proof.
  intros Hp Hdel. rewrite (unload_runs self p deleting a Hp Hdel).
  split; [reflexivity|]. simpl. split; [|split].
  - case_bool_decide as Hin; [|assumption].
    rewrite filter_other_mem. tauto.
  - intros x Hx. case_bool_decide; [|reflexivity].
    rewrite filter_other_mem. tauto.
  - rewrite !app_assoc. apply last_snoc.
Qed.

(** [removeProvider] is called exactly when the provider is found in the
    registry. *)
Theorem unload_removes_registered_only (self : plugin) (p : string)
    (deleting : delete_outcome) (a : app) :
  provider self = Some p ->
  (forall e, deleting <> RaisesOther e) ->
  let '(_, a') := unload self deleting a in
  exists new, calls a' = calls a ++ new /\
    (removeProvider p ∈ new <-> p ∈ registry a).
Proof.
  intros Hp Hdel. rewrite (unload_runs self p deleting a Hp Hdel). simpl.
  eexists; split; [reflexivity|].
  rewrite !elem_of_app.
  case_bool_decide as Hin.
  - split; [tauto|]. intros _. right; right; left. apply list_elem_of_here.
  - split; [|tauto].
    intros [H | [H | [H | H]]];
      [destruct (menu self) | destruct (toolButton self) | |];
      repeat match goal with
      | H : _ ∈ _ :: _ |- _ => apply elem_of_cons in H as [H|H]
      | H : _ ∈ [] |- _ => inversion H
      end; discriminate.
Qed.

(** A [RuntimeError] from [deleteLater] is printed and does not stop the
    unloading. *)
Theorem unload_survives_runtime_error (self : plugin) (p button message : string)
    (a : app) :
  provider self = Some p ->
  toolButton self = Some button ->
  let '(r, a') := unload self (RaisesRuntimeError message) a in
  r = Ret tt /\
  stdout a' = stdout a ++ ["Error deleting toolButton: " +:+ message] /\
  last (calls a') = Some teardown_logger.
Proof.
  intros Hp Hb.
  rewrite (unload_runs self p (RaisesRuntimeError message) a Hp)
    by discriminate.
  rewrite Hb. simpl. repeat split.
  rewrite last_app. destruct (menu self); now case_bool_decide.
Qed.

(** Any other exception from [deleteLater] leaves [unload] at once: the
    provider stays registered and the logger is not torn down. *)
Theorem unload_aborts_on_other_error (self : plugin) (button : string)
    (e : exn) (a : app) :
  toolButton self = Some button ->
  unload self (RaisesOther e) a =
    (Raise e,
     {| registry := registry a;
        calls := calls a ++
          match menu self with Some m => [removeAction m] | None => [] end ++
          [deleteLater button];
        stdout := stdout a |}).
Proof.
  intros Hb. unfold unload. rewrite Hb.
  unfold bind, invoke, modify, ret, raise; simpl.
  destruct (menu self); simpl; now rewrite <- ?app_assoc.
Qed.

(** The project button always names something: a missing project and an
    empty one both show as three dots, any other project as itself. *)
Theorem project_button_text_names (self : plugin) :
  (exists name, name <> "" /\
     _project_button_text self = "Set Project: " +:+ name) /\
  (ee_config_project self = None \/ ee_config_project self = Some "" ->
     _project_button_text self = "Set Project: ...") /\
  (forall project, ee_config_project self = Some project -> project <> "" ->
     _project_button_text self = "Set Project: " +:+ project).
Proof.
  unfold _project_button_text. split; [|split].
  - destruct (ee_config_project self) as [project|].
    + destruct (String.eqb_spec project "") as [->|Hne].
      * exists "...". split; [discriminate | reflexivity].
      * exists project. split; [assumption | reflexivity].
    + exists "...". split; [discriminate | reflexivity].
  - now intros [-> | ->].
  - intros project -> Hne.
    destruct (String.eqb_spec project ""); [contradiction | reflexivity].
Qed.

(** Once the action exists, a configuration update sets its text to the
    translated button text and changes nothing else. *)
Theorem config_update_sets_text (translate : string -> string)
    (self : plugin) (text : string) (a : app) :
  set_cloud_project_action self = Some text ->
  on_config_updated translate self a =
    (Ret {| ee_config_project := ee_config_project self;
            menu := menu self; toolButton := toolButton self;
            translator := translator self; provider := provider self;
            set_cloud_project_action :=
              Some (translate (_project_button_text self)) |},
     a).
Proof. intros H. unfold on_config_updated. now rewrite H. Qed.

End UnloadFacts.

(** ** The theorems above on the sample data *)

Section Scenarios.

Import Scenario.

Lemma check_version_reports_request_failure_witness :
  let h := VersionCheck.Sample.fresh in
  let e := VersionCheck.Sample.timed_out in
  let h' := snd (VersionCheck.check_version "0.0.6" (Raise e) h) in
  VersionCheck.stdout h' = VersionCheck.stdout h ++
    ["HTTP error occurred when checking for recent plugin version: "
     +:+ exn_str e] /\
  VersionCheck.messageBar h' = VersionCheck.messageBar h.
Proof.
  apply (check_version_reports_request_failure "0.0.6"
           VersionCheck.Sample.timed_out VersionCheck.Sample.fresh).
  - reflexivity.
  - apply list_elem_of_here.
Defined.

Lemma check_version_reports_other_failures_witness :
  let h := VersionCheck.Sample.fresh in
  let e := mk_exn JSONDecodeError "Expecting value: line 1 column 1 (char 0)" in
  VersionCheck.stdout (snd (VersionCheck.check_version "0.0.6" (Raise e) h))
    = VersionCheck.stdout h ++ ["Value error occurred: " +:+ exn_str e].
Proof.
  intros h e.
  apply (check_version_reports_other_failures "0.0.6" e h).
  - reflexivity.
  - apply list_elem_of_further, list_elem_of_here.
Defined.

Lemma check_version_same_version_silent_witness :
  VersionCheck.check_version "0.0.6" (Ret "0.0.6") VersionCheck.Sample.fresh =
    (Ret tt,
     VersionCheck.mk_host true
       [VersionCheck.mk_get VersionCheck.latest_version_url 10] [] []).
Proof.
  apply (check_version_same_version_silent "0.0.6" VersionCheck.Sample.fresh).
  reflexivity.
Defined.

Lemma check_version_misses_two_digit_upgrade_witness :
  VersionCheck.messageBar
    (snd (VersionCheck.check_version "0.0.9" (Ret "0.0.10")
            VersionCheck.Sample.fresh))
  = [].
Proof.
  apply (check_version_misses_two_digit_upgrade "0.0." "" ""
           VersionCheck.Sample.fresh).
  reflexivity.
Defined.

Lemma check_version_one_direction_witness :
  VersionCheck.messageBar
    (snd (VersionCheck.check_version "0.0.7" (Ret "0.0.6")
            VersionCheck.Sample.fresh))
  = [].
Proof.
  apply (check_version_one_direction "0.0.6" "0.0.7" VersionCheck.Sample.fresh).
  - reflexivity.
  - discriminate.
Defined.

Local Abbreviation replay :=
  (Replay._updateLayers string string Replay.Sample.fromJSON
     Replay.Sample.json_loads).

Lemma updateLayers_silent_is_complete_witness :
  let q := Replay.Sample.loaded
             [Replay.Sample.dem_layer; roads_layer; Replay.Sample.dem_layer] in
  Forall (fun l => is_Some (Replay.display_of string string
                              Replay.Sample.fromJSON Replay.Sample.json_loads
                              (Replay.proj q) l))
         (Replay.ee_layers q) /\
  Replay.rendered (snd (replay q))
    = Replay.rendered q ++
      Replay.displays string string Replay.Sample.fromJSON
        Replay.Sample.json_loads (Replay.proj q) (Replay.ee_layers q).
Proof.
  intros q.
  apply (updateLayers_silent_is_complete Replay.Sample.fromJSON
           Replay.Sample.json_loads q); reflexivity.
Defined.


Lemma updateLayers_without_ee_layers_witness :
  replay (Replay.Sample.loaded [roads_layer; roads_layer])
    = (Ret tt, Replay.Sample.loaded [roads_layer; roads_layer]).
Proof.
  apply (updateLayers_without_ee_layers Replay.Sample.fromJSON
           Replay.Sample.json_loads
           (Replay.Sample.loaded [roads_layer; roads_layer])).
  repeat constructor.
Defined.

Lemma init_locale_witness :
  Plugin.locale_of (Some "en_US") = "en" /\
  Plugin.locale_of (Some "de") = "de" /\
  Plugin.locale_of None = "No".
Proof.
  split; [reflexivity|]. split.
  - apply (init_locale (Some "de")); [reflexivity | simpl; lia].
  - apply (init_locale None). reflexivity.
Defined.

Lemma init_translator_witness :
  let path := "/plugins/ee_plugin/i18n/GoogleEarthEnginePlugin_en.qm" in
  let '(_, a') := Plugin.__init__ PLUGIN_DIR path_join path_exists qt5
                    (Some "en_US") None Plugin.Sample.idle in
  exists new, Plugin.calls a' = Plugin.calls Plugin.Sample.idle ++ new /\
    (Plugin.QTranslator_load path ∈ new <-> path_exists path = true) /\
    (Plugin.installTranslator path ∈ new <->
       path_exists path = true /\ lex_lt "4.3.3" qt5).
Proof.
  exact (init_translator PLUGIN_DIR path_join path_exists qt5
           (Some "en_US") None Plugin.Sample.idle).
Defined.

Lemma init_low_version_no_translator_witness :
  let '(_, a') := Plugin.__init__ PLUGIN_DIR path_join path_exists qt10
                    (Some "en_US") None Plugin.Sample.idle in
  exists new, Plugin.calls a' = Plugin.calls Plugin.Sample.idle ++ new /\
    forall path, Plugin.installTranslator path ∉ new.
Proof.
  apply (init_low_version_no_translator PLUGIN_DIR path_join path_exists qt10
           "1"%char "0.0.1" (Some "en_US") None Plugin.Sample.idle).
  - reflexivity.
  - reflexivity.
Defined.

Lemma unload_completes_witness :
  let '(r, a') := Plugin.unload Plugin.Sample.started Plugin.Deleted
                    Plugin.Sample.running in
  r = Ret tt /\
  ("ee" ∉ Plugin.registry a') /\
  (forall x, x <> "ee" ->
     x ∈ Plugin.registry a' <-> x ∈ Plugin.registry Plugin.Sample.running) /\
  last (Plugin.calls a') = Some Plugin.teardown_logger.
Proof.
  apply (unload_completes Plugin.Sample.started "ee" Plugin.Deleted
           Plugin.Sample.running).
  - reflexivity.
  - discriminate.
Defined.

Lemma unload_removes_registered_only_witness :
  let '(_, a') := Plugin.unload Plugin.Sample.started Plugin.Deleted
                    Plugin.Sample.idle in
  exists new, Plugin.calls a' = Plugin.calls Plugin.Sample.idle ++ new /\
    (Plugin.removeProvider "ee" ∈ new
       <-> "ee" ∈ Plugin.registry Plugin.Sample.idle).
Proof.
  apply (unload_removes_registered_only Plugin.Sample.started "ee"
           Plugin.Deleted Plugin.Sample.idle).
  - reflexivity.
  - discriminate.
Defined.

Lemma unload_survives_runtime_error_witness :
  let message := "wrapped C/C++ object of type QToolButton has been deleted" in
  let '(r, a') := Plugin.unload Plugin.Sample.started
                    (Plugin.RaisesRuntimeError message)
                    Plugin.Sample.running in
  r = Ret tt /\
  Plugin.stdout a' = Plugin.stdout Plugin.Sample.running
                     ++ ["Error deleting toolButton: " +:+ message] /\
  last (Plugin.calls a') = Some Plugin.teardown_logger.
Proof.
  apply (unload_survives_runtime_error Plugin.Sample.started "ee" "toolButton"
           "wrapped C/C++ object of type QToolButton has been deleted"
           Plugin.Sample.running); reflexivity.
Defined.

Lemma unload_aborts_on_other_error_witness :
  let e := mk_exn TypeError "deleteLater() takes no arguments" in
  Plugin.unload Plugin.Sample.started (Plugin.RaisesOther e)
    Plugin.Sample.running
  = (Raise e,
     Plugin.mk_app ["native"; "ee"; "gdal"]
       [Plugin.removeAction "&Google Earth Engine";
        Plugin.deleteLater "toolButton"] []).
Proof.
  intros e.
  apply (unload_aborts_on_other_error Plugin.Sample.started "toolButton" e
           Plugin.Sample.running).
  reflexivity.
Defined.

Lemma project_button_text_names_witness :
  Plugin._project_button_text
    (Plugin.mk_plugin (Some "") None None None None None)
    = "Set Project: ..." /\
  Plugin._project_button_text Plugin.Sample.started
    = "Set Project: my-project".
Proof.
  split.
  - destruct (project_button_text_names
                (Plugin.mk_plugin (Some "") None None None None None))
      as (_ & Hempty & _).
    apply Hempty. right. reflexivity.
  - destruct (project_button_text_names Plugin.Sample.started)
      as (_ & _ & Hnamed).
    apply (Hnamed "my-project"); [reflexivity | discriminate].
Defined.

End Scenarios.
